(** * ion_functions.data.vel_functions: magnetic-declination correction of
      horizontal velocities

    A shallow embedding of [ion_functions/data/vel_functions.py]: the two
    coordinate validators, the orchestrator [vel_mag_correction] and the four
    instrument wrappers, together with the part of NumPy they rely on
    (shapes, broadcasting, [np.vectorize], [np.ones], [np.any]).

    Array elements are IEEE-754 binary64 numbers (Rocq's primitive floats), so
    that NaN and the comparison operators behave as they do in Python.  The
    orchestrator does no arithmetic of its own and is therefore written once,
    for any element type; it is used at [float] by the wrappers and at [R] for
    the idealised rotation.

    The two functions imported from [ion_functions.data.generic_functions]
    ([magnetic_declination] and [magnetic_correction]) are not part of this
    file's source; they are Section variables. *)

From Stdlib Require Import ZArith List Bool Lia Floats Reals Lra.
Import ListNotations.

Set Implicit Arguments.

(** ** Python values *)

(** What a Python exception is, as far as this module can raise one.
    [External] stands for whatever the declination provider raises. *)
Inductive exn : Type :=
| AttributeError
| ValueError
| External (code : nat).

Inductive result (A : Type) : Type :=
| Ok (a : A)
| Raise (e : exn).

Arguments Ok {A} a.
Arguments Raise {A} e.

(** A value handed to the functions of the module: a Python [int], a Python
    [float], or a [numpy.ndarray] given by its shape and its row-major data. *)
Inductive pyval (num : Type) : Type :=
| PyInt (n : Z)
| PyFloat (x : num)
| NdArray (shape : list nat) (data : list num).

Arguments PyInt {num} n.
Arguments PyFloat {num} x.
Arguments NdArray {num} shape data.

(** Number of elements of an array of a given shape. *)
Definition size_of (shape : list nat) : nat := fold_right Nat.mul 1 shape.

(** An array is well formed when its buffer has as many elements as its shape
    announces.  Scalars always are. *)
Definition well_formed {num} (v : pyval num) : Prop :=
  match v with
  | NdArray sh d => length d = size_of sh
  | _ => True
  end.

(** ** Computations: state passing with exceptions

    The state ["world"] is whatever the external declination provider keeps or
    touches; this module has no state of its own. *)
Definition M (W A : Type) : Type := W -> result A * W.

Definition ret {W A} (a : A) : M W A := fun w => (Ok a, w).

Definition bind {W A B} (c : M W A) (k : A -> M W B) : M W B :=
  fun w =>
    match c w with
    | (Ok a, w') => k a w'
    | (Raise e, w') => (Raise e, w')
    end.

Definition lift {W A} (r : result A) : M W A := fun w => (r, w).

Notation "x <- c ;; k" := (bind c (fun x => k))
  (at level 61, c at next level, right associativity).

(** A default argument of a Python function: [None] is "not passed". *)
Definition default {A} (d : A) (o : option A) : A :=
  match o with
  | Some a => a
  | None => d
  end.

(** ** NumPy broadcasting *)

(** One pair of dimensions: equal, or one of them is 1. *)
Definition broadcast_dim (a b : nat) : option nat :=
  if Nat.eqb a b then Some a
  else if Nat.eqb a 1 then Some b
  else if Nat.eqb b 1 then Some a
  else None.

(** Shapes are aligned on their last dimension; this works on the reversed
    shapes, so the missing leading dimensions are the missing tails. *)
Fixpoint broadcast_rev (a b : list nat) : option (list nat) :=
  match a, b with
  | [], _ => Some b
  | _, [] => Some a
  | x :: a', y :: b' =>
      match broadcast_dim x y, broadcast_rev a' b' with
      | Some d, Some r => Some (d :: r)
      | _, _ => None
      end
  end.

Definition broadcast_shapes (a b : list nat) : option (list nat) :=
  option_map (@rev nat) (broadcast_rev (rev a) (rev b)).

Definition broadcast_shapes3 (a b c : list nat) : option (list nat) :=
  match broadcast_shapes a b with
  | Some ab => broadcast_shapes ab c
  | None => None
  end.

Section Broadcast.
Variable num : Type.

(** [k] consecutive blocks of [n] elements each. *)
Fixpoint chunks (n k : nat) (d : list num) : list (list num) :=
  match k with
  | O => []
  | S k' => firstn n d :: chunks n k' (skipn n d)
  end.

(** Stretch the data of an array of shape [s] to the shape [t] of the same
    rank: a dimension of size 1 is repeated, any other is kept. *)
Fixpoint stretch (t s : list nat) (d : list num) : list num :=
  match t, s with
  | e :: t', k :: s' =>
      if Nat.eqb k e
      then flat_map (stretch t' s') (chunks (size_of s') k d)
      else concat (repeat (stretch t' s' d) e)
  | _, _ => d
  end.

(** [np.broadcast_to]: leading dimensions of size 1 are added first. *)
Definition broadcast_to (t s : list nat) (d : list num) : list num :=
  stretch t (repeat 1 (length t - length s) ++ s) d.
End Broadcast.

(** ** The orchestrator, for any element type *)

Section Orchestrator.
Variable num : Type.
(** How NumPy turns a Python [int] into an array element. *)
Variable of_int : Z -> num.
Variable world : Type.

(** [generic_functions.magnetic_declination(lat, lon, ntp_timestamp, z, zflag)]:
    the external declination provider, called with five arguments. *)
Variable magnetic_declination :
  pyval num -> pyval num -> pyval num -> pyval num -> pyval num ->
  M world (pyval num).

(** [generic_functions.magnetic_correction(theta, u, v)]: the rotation of one
    velocity pair. *)
Variable magnetic_correction : num -> num -> num -> num * num.

(** [np.asarray]: a scalar becomes a 0-dimensional array. *)
Definition asarray (v : pyval num) : list nat * list num :=
  match v with
  | PyInt n => ([], [of_int n])
  | PyFloat x => ([], [x])
  | NdArray sh d => (sh, d)
  end.

Definition map3 (f : num -> num -> num -> num * num)
           (a b c : list num) : list (num * num) :=
  map (fun p => f (fst p) (fst (snd p)) (snd (snd p)))
      (combine a (combine b c)).

(** [np.vectorize(f)(a, b, c)] for an [f] with two outputs and no [otypes]:
    inputs of size 0 are refused, the three inputs are broadcast against
    each other, [f] is applied element by element and the two outputs come
    back as two arrays of the broadcast shape. *)
Definition np_vectorize (f : num -> num -> num -> num * num)
           (a b c : pyval num) : result (pyval num * pyval num) :=
  let (sa, da) := asarray a in
  let (sb, db) := asarray b in
  let (sc, dc) := asarray c in
  if existsb (fun s => Nat.eqb (size_of s) 0) [sa; sb; sc]
  then Raise ValueError
  else
    match broadcast_shapes3 sa sb sc with
    | None => Raise ValueError
    | Some sh =>
        let outs := map3 f (broadcast_to sh sa da) (broadcast_to sh sb db)
                           (broadcast_to sh sc dc) in
        Ok (NdArray sh (map fst outs), NdArray sh (map snd outs))
    end.

(** [def vel_mag_correction(u, v, lat, lon, ntp_timestamp, z=0.0, zflag=-1)] *)
Definition vel_mag_correction (u v lat lon ntp_timestamp : pyval num)
           (z zflag : option (pyval num))
  : M world (pyval num * pyval num) :=
  let z := default (PyFloat (of_int 0)) z in
  let zflag := default (PyInt (-1)) zflag in
  (* retrieve the magnetic declination *)
  theta <- magnetic_declination lat lon ntp_timestamp z zflag ;;
  (* apply the magnetic declination correction *)
  let magvar := np_vectorize magnetic_correction in
  lift (magvar theta u v).
End Orchestrator.

(** ** Recording what the provider is asked

    The arguments of one call of [magnetic_declination], and a wrapper that
    appends them to a log kept beside the provider's own state. *)
Record query (num : Type) : Type := mkQuery {
  q_lat : pyval num;
  q_lon : pyval num;
  q_time : pyval num;
  q_z : pyval num;
  q_zflag : pyval num
}.

Definition logging {num W}
           (provider : pyval num -> pyval num -> pyval num -> pyval num ->
                       pyval num -> M W (pyval num))
  : pyval num -> pyval num -> pyval num -> pyval num -> pyval num ->
    M (W * list (query num)) (pyval num) :=
  fun lat lon t z zflag s =>
    let (r, w') := provider lat lon t z zflag (fst s) in
    (r, (w', snd s ++ [mkQuery lat lon t z zflag])).

(** ** Validators and wrappers, on binary64 *)

(** Conversion of a Python [int] to binary64, correctly rounded. *)
Definition float_of_Z (n : Z) : float :=
  SF2Prim (binary_normalize prec emax n 0 false).

(** [np.any] of a boolean array. *)
Definition np_any (l : list bool) : bool := existsb (fun b => b) l.

(** [def valid_lat(lat)] *)
Definition valid_lat (lat : pyval float) : bool :=
  match lat with
  | NdArray _ d =>
      if np_any (map (fun x => 90 <? x)%float d)
         || np_any (map (fun x => x <? -90)%float d)
      then false
      else true
  | PyFloat x => ((-90 <=? x) && (x <=? 90))%float
  | PyInt n => ((-90 <=? n) && (n <=? 90))%Z
  end.

(** [def valid_lon(lon)] *)
Definition valid_lon (lon : pyval float) : bool :=
  match lon with
  | NdArray _ d =>
      if np_any (map (fun x => 180 <? x)%float d)
         || np_any (map (fun x => x <? -180)%float d)
      then false
      else true
  | PyFloat x => ((-180 <=? x) && (x <=? 180))%float
  | PyInt n => ((-180 <=? n) && (n <=? 180))%Z
  end.

(** [u.shape]: only arrays have the attribute. *)
Definition shape_attr {num} (u : pyval num) : result (list nat) :=
  match u with
  | NdArray sh _ => Ok sh
  | _ => Raise AttributeError
  end.

(** [np.ones(shape, dtype=np.float)], for a NumPy in which [np.float] is the
    built-in [float], as the source assumes. *)
Definition np_ones (shape : list nat) : pyval float :=
  NdArray shape (repeat 1%float (size_of shape)).

(** [a * k] for an array [a] and a Python [int] [k].  The product of a
    0-dimensional array is not an array: NumPy hands it back as a scalar (a
    [float64], which is a Python [float]), rendered here by [PyFloat]. *)
Definition np_mul_int (a : pyval float) (k : Z) : pyval float :=
  match a with
  | NdArray [] [x] => PyFloat (x * float_of_Z k)%float
  | NdArray sh d => NdArray sh (map (fun x => x * float_of_Z k)%float d)
  | PyFloat x => PyFloat (x * float_of_Z k)%float
  | PyInt n => PyInt (n * k)
  end.

(** [ne.evaluate('a / k')] with a float literal [k]; the result is an array.
    With its default optimisation numexpr compiles the division of a float64
    operand by a float constant as a multiplication by the reciprocal
    [1 / k], which is computed once, in binary64. *)
Definition ne_div (a : pyval float) (k : float) : pyval float :=
  match a with
  | NdArray sh d => NdArray sh (map (fun x => x * (1 / k))%float d)
  | PyFloat x => NdArray [] [(x * (1 / k))%float]
  | PyInt n => NdArray [] [(float_of_Z n / k)%float]
  end.

(** The sentinel returned for an invalid position. *)
Definition fill_array (shape : list nat) : pyval float :=
  NdArray shape (repeat (-9999)%float (size_of shape)).

(** The sentinel as NumPy returns it for a velocity of shape [sh]: the array
    above, or the scalar -9999 when the velocity is 0-dimensional. *)
Definition sentinel (sh : list nat) : pyval float :=
  match sh with
  | [] => PyFloat (-9999)%float
  | _ :: _ => fill_array sh
  end.

Section Wrappers.
Variable world : Type.
Variable magnetic_declination :
  pyval float -> pyval float -> pyval float -> pyval float -> pyval float ->
  M world (pyval float).
Variable magnetic_correction : float -> float -> float -> float * float.

Let orchestrate :=
  vel_mag_correction float_of_Z magnetic_declination magnetic_correction.

(** [def nobska_mag_corr_east(u, v, lat, lon, timestamp, z=0)] *)
Definition nobska_mag_corr_east (u v lat lon timestamp : pyval float)
           (z : option (pyval float)) : M world (pyval float) :=
  let z := default (PyInt 0) z in
  (* check for valid latitudes & longitudes; else return fill value *)
  if negb (valid_lat lat) || negb (valid_lon lon)
  then sh <- lift (shape_attr u) ;; ret (np_mul_int (np_ones sh) (-9999))
  else
    (* correct for magnetic declination *)
    r <- orchestrate u v lat lon timestamp (Some z) None ;;
    let u_cor := fst r in
    (* convert from cm/s to m/s *)
    ret (ne_div u_cor 100).

(** [def nobska_mag_corr_north(u, v, lat, lon, timestamp, z=0)] *)
Definition nobska_mag_corr_north (u v lat lon timestamp : pyval float)
           (z : option (pyval float)) : M world (pyval float) :=
  let z := default (PyInt 0) z in
  if negb (valid_lat lat) || negb (valid_lon lon)
  then sh <- lift (shape_attr u) ;; ret (np_mul_int (np_ones sh) (-9999))
  else
    r <- orchestrate u v lat lon timestamp (Some z) None ;;
    let v_cor := snd r in
    ret (ne_div v_cor 100).

(** [def nortek_mag_corr_east(u, v, lat, lon, timestamp, z=0.0)] *)
Definition nortek_mag_corr_east (u v lat lon timestamp : pyval float)
           (z : option (pyval float)) : M world (pyval float) :=
  let z := default (PyFloat 0%float) z in
  if negb (valid_lat lat) || negb (valid_lon lon)
  then sh <- lift (shape_attr u) ;; ret (np_mul_int (np_ones sh) (-9999))
  else
    r <- orchestrate u v lat lon timestamp (Some z) None ;;
    let u_cor := fst r in
    ret u_cor.

(** [def nortek_mag_corr_north(u, v, lat, lon, timestamp, z=0.0)] *)
Definition nortek_mag_corr_north (u v lat lon timestamp : pyval float)
           (z : option (pyval float)) : M world (pyval float) :=
  let z := default (PyFloat 0%float) z in
  if negb (valid_lat lat) || negb (valid_lon lon)
  then sh <- lift (shape_attr u) ;; ret (np_mul_int (np_ones sh) (-9999))
  else
    r <- orchestrate u v lat lon timestamp (Some z) None ;;
    let v_cor := snd r in
    ret v_cor.
End Wrappers.

(** The four wrappers, in the order of the source file. *)
Definition wrappers {world}
  : list ((pyval float -> pyval float -> pyval float -> pyval float ->
           pyval float -> M world (pyval float)) ->
          (float -> float -> float -> float * float) ->
          pyval float -> pyval float -> pyval float -> pyval float ->
          pyval float -> option (pyval float) -> M world (pyval float)) :=
  [ @nobska_mag_corr_east world; @nobska_mag_corr_north world;
    @nortek_mag_corr_east world; @nortek_mag_corr_north world ].

(** A value lies in a closed interval, in the order of binary64 (NaN lies in
    no interval). *)
Definition within (lo hi x : float) : bool := ((lo <=? x) && (x <=? hi))%float.

(** What [np.vectorize] makes of the angle when the velocities have shape
    [sh]: a scalar angle is repeated, an array is taken element by element. *)
Definition angles {num} (of_int : Z -> num) (sh : list nat)
           (theta : pyval num) : list num :=
  match theta with
  | PyInt n => repeat (of_int n) (size_of sh)
  | PyFloat x => repeat x (size_of sh)
  | NdArray _ d => d
  end.

(** The angle is a scalar or an array of the shape [sh]. *)
Definition conforms {num} (sh : list nat) (theta : pyval num) : Prop :=
  match theta with
  | NdArray s d => s = sh /\ length d = size_of sh
  | _ => True
  end.

(** ** Stand-ins for the two external functions, for running the code *)
Module Stub.
(** A declination that is the same everywhere: one angle per position. *)
Definition uniform_field (deg : float)
  : pyval float -> pyval float -> pyval float -> pyval float ->
    pyval float -> M unit (pyval float) :=
  fun lat _ _ _ _ w =>
    (Ok match lat with
        | NdArray sh d => NdArray sh (map (fun _ => deg) d)
        | _ => PyFloat deg
        end, w).

(** A provider whose model does not cover the request. *)
Definition out_of_domain
  : pyval float -> pyval float -> pyval float -> pyval float ->
    pyval float -> M unit (pyval float) :=
  fun _ _ _ _ _ w => (Raise (External 1), w).

(** Rotation by a whole number of quarter turns, which binary64 does
    exactly; any other angle leaves the pair as it is. *)
Definition quarter_turns (theta u v : float) : float * float :=
  if (theta =? 90)%float then ((- v)%float, u)
  else if (theta =? 180)%float then ((- u)%float, (- v)%float)
  else if (theta =? 270)%float then (v, (- u)%float)
  else (u, v).

Definition start : unit * list (query float) := (tt, []).
End Stub.

(** ** The rotation on real numbers *)
Module Ideal.
Local Open Scope R_scope.

(** Modelled from the spec: [magnetic_correction] lives in
    [ion_functions/data/generic_functions.py], which is not among the
    sources.  The spec (4.3) describes it as a planar rotation of the pair
    (u, v) by the angle theta through the standard 2-D rotation matrix, with
    theta in degrees in its worked example (rotating (1, 0) by 10 gives
    about (0.9848, 0.1736)).  Binary64 rounding is left out: the numbers
    are real. *)
Definition magnetic_correction (theta u v : R) : R * R :=
  let theta_rad := theta * PI / 180 in
  (u * cos theta_rad - v * sin theta_rad,
   u * sin theta_rad + v * cos theta_rad).

(** Euclidean length of a velocity pair. *)
Definition magnitude (p : R * R) : R :=
  sqrt (fst p * fst p + snd p * snd p).

(** A provider that knows a single angle. *)
Definition fixed_angle (theta : R)
  : pyval R -> pyval R -> pyval R -> pyval R -> pyval R -> M unit (pyval R) :=
  fun _ _ _ _ _ w => (Ok (PyFloat theta), w).
End Ideal.

(** ** Vocabulary of the specification *)

(** Some element of a latitude lies outside [-90, 90]. *)
Definition lat_outside (lat : pyval float) : bool :=
  match lat with
  | NdArray _ d => existsb (fun x => (x <? -90) || (90 <? x))%float d
  | PyFloat x => ((x <? -90) || (90 <? x))%float
  | PyInt n => ((n <? -90) || (90 <? n))%Z
  end.

(** Some element of a longitude lies outside [-180, 180]. *)
Definition lon_outside (lon : pyval float) : bool :=
  match lon with
  | NdArray _ d => existsb (fun x => (x <? -180) || (180 <? x))%float d
  | PyFloat x => ((x <? -180) || (180 <? x))%float
  | PyInt n => ((n <? -180) || (180 <? n))%Z
  end.

(** A Python scalar, as opposed to an array. *)
Definition is_scalar {num} (u : pyval num) : bool :=
  match u with
  | NdArray _ _ => false
  | _ => true
  end.

(** [np.shape]: a scalar has the empty shape. *)
Definition shape_of {num} (u : pyval num) : list nat :=
  match u with
  | NdArray sh _ => sh
  | _ => []
  end.

(** The elements of a value, a scalar being an array of one element. *)
Definition elements {num} (of_int : Z -> num) (u : pyval num) : list num :=
  snd (asarray of_int u).

(** What a wrapper makes of the orchestrator's outcome: it keeps the state,
    lets an exception through and turns a returned pair into one value. *)
Definition component {W A B} (g : A -> B) (o : result A * W) : result B * W :=
  match o with
  | (Ok r, w') => (Ok (g r), w')
  | (Raise e, w') => (Raise e, w')
  end.

(** The common outline of the four wrappers: position check, then either the
    sentinel shaped like [u] or one component [g] of the orchestrator's
    outcome, [z0] being the wrapper's default for [z]. *)
Definition wrapper_outline {W}
           (f : (pyval float -> pyval float -> pyval float -> pyval float ->
                 pyval float -> M W (pyval float)) ->
                (float -> float -> float -> float * float) ->
                pyval float -> pyval float -> pyval float -> pyval float ->
                pyval float -> option (pyval float) -> M W (pyval float))
           (g : pyval float * pyval float -> pyval float)
           (z0 : pyval float) : Prop :=
  forall md mc u v lat lon t z w,
    f md mc u v lat lon t z w =
    if negb (valid_lat lat) || negb (valid_lon lon)
    then (match shape_attr u with
          | Ok sh => Ok (np_mul_int (np_ones sh) (-9999))
          | Raise e => Raise e
          end, w)
    else component g
           (vel_mag_correction float_of_Z md mc u v lat lon t
                               (Some (default z0 z)) None w).

(** ** Vocabulary of the further properties *)

(** A dimension [k] of an array can be broadcast to the dimension [e]. *)
Definition dim_fits (e k : nat) : Prop := k = e \/ k = 1.

(** The shape [s], padded with leading 1s to the rank of [t], fits [t]. *)
Definition fits (t s : list nat) : Prop :=
  length s <= length t
  /\ Forall2 dim_fits t (repeat 1 (length t - length s) ++ s).

(** A position given as a scalar NaN. *)
Definition scalar_nan (p : pyval float) : bool :=
  match p with
  | PyFloat x => is_nan x
  | _ => false
  end.

(** * Properties *)

Unset Implicit Arguments.

(** ** Order of binary64 *)

Lemma is_nan_Prim2SF : forall x, is_nan x = true -> Prim2SF x = S754_nan.
Proof.
  intros x H. unfold is_nan in H. rewrite FloatAxioms.eqb_spec in H.
  unfold SFeqb in H.
  destruct (Prim2SF x) as [s|s| |s m e] eqn:E; simpl in H; auto.
  - discriminate.
  - destruct s; discriminate.
  - rewrite Z.compare_refl in H. rewrite Pos.compare_cont_refl in H.
    destruct s; discriminate.
Qed.

Lemma SFcompare_antisym : forall a b c,
  SFcompare a b = Some c -> SFcompare b a = Some (CompOpp c).
Proof.
  intros [s1|s1| |s1 m1 e1] [s2|s2| |s2 m2 e2] c; simpl; intros H;
    try discriminate; injection H as <-;
    try (destruct s1; reflexivity); try (destruct s2; reflexivity);
    try (destruct s1, s2; reflexivity).
  rewrite (Z.compare_antisym e1 e2).
  destruct s1, s2; simpl; try reflexivity.
  - destruct (e1 ?= e2)%Z eqn:E; simpl; try reflexivity.
    rewrite CompOpp_involutive.
    rewrite (Pos.compare_cont_antisym). reflexivity.
  - destruct (e1 ?= e2)%Z eqn:E; simpl; try reflexivity.
    rewrite (Pos.compare_cont_antisym). reflexivity.
Qed.



Lemma leb_nan_r : forall x y, is_nan x = true -> (y <=? x)%float = false.
Proof.
  intros x y H. rewrite leb_spec, (is_nan_Prim2SF _ H).
  unfold SFleb. destruct (Prim2SF y); reflexivity.
Qed.

Lemma leb_nan_l : forall x y, is_nan x = true -> (x <=? y)%float = false.
Proof.
  intros x y H. rewrite leb_spec, (is_nan_Prim2SF _ H). reflexivity.
Qed.

Lemma not_nan_compare : forall x y,
  is_nan x = false -> is_nan y = false ->
  exists c, SFcompare (Prim2SF x) (Prim2SF y) = Some c.
Proof.
  intros x y Hx Hy.
  destruct (SFcompare (Prim2SF x) (Prim2SF y)) as [c|] eqn:E; [eauto|].
  exfalso.
  unfold is_nan in Hx, Hy. rewrite FloatAxioms.eqb_spec in Hx, Hy.
  unfold SFeqb in Hx, Hy.
  destruct (Prim2SF x) as [s1|s1| |s1 m1 e1], (Prim2SF y) as [s2|s2| |s2 m2 e2];
    simpl in *; discriminate.
Qed.

Lemma ltb_negb_leb : forall x y,
  is_nan x = false -> is_nan y = false ->
  (y <? x)%float = negb (x <=? y)%float.
Proof.
  intros x y Hx Hy. rewrite ltb_spec, leb_spec.
  destruct (not_nan_compare x y Hx Hy) as [c E].
  unfold SFltb, SFleb. rewrite E, (SFcompare_antisym _ _ _ E).
  destruct c; reflexivity.
Qed.

Lemma ltb_true_leb_false : forall x y,
  (y <? x)%float = true -> (x <=? y)%float = false.
Proof.
  intros x y H.
  destruct (is_nan x) eqn:Hx; [now apply leb_nan_l|].
  destruct (is_nan y) eqn:Hy; [now apply leb_nan_r|].
  rewrite (ltb_negb_leb x y Hx Hy) in H.
  now destruct (x <=? y)%float.
Qed.


(** ** Broadcasting *)

Lemma broadcast_dim_same : forall a, broadcast_dim a a = Some a.
Proof. intros a. unfold broadcast_dim. now rewrite Nat.eqb_refl. Qed.

Lemma broadcast_rev_same : forall a, broadcast_rev a a = Some a.
Proof.
  induction a as [|x a IH]; simpl; [reflexivity|].
  now rewrite broadcast_dim_same, IH.
Qed.

Lemma broadcast_shapes_same : forall s, broadcast_shapes s s = Some s.
Proof.
  intros s. unfold broadcast_shapes. rewrite broadcast_rev_same. simpl.
  now rewrite rev_involutive.
Qed.

Lemma broadcast_shapes_scalar_l : forall s, broadcast_shapes [] s = Some s.
Proof.
  intros s. unfold broadcast_shapes. simpl. now rewrite rev_involutive.
Qed.

Lemma broadcast_shapes3_same : forall s, broadcast_shapes3 s s s = Some s.
Proof.
  intros s. unfold broadcast_shapes3. now rewrite !broadcast_shapes_same.
Qed.

Lemma broadcast_shapes3_scalar : forall s, broadcast_shapes3 [] s s = Some s.
Proof.
  intros s. unfold broadcast_shapes3.
  now rewrite broadcast_shapes_scalar_l, broadcast_shapes_same.
Qed.

Section BroadcastFacts.
Variable num : Type.
Implicit Types d : list num.


Lemma chunks_concat : forall n k d,
  length d = k * n -> concat (chunks n k d) = d.
Proof.
  induction k as [|k IH]; simpl; intros d H.
  - destruct d; [reflexivity|discriminate].
  - rewrite IH.
    + apply firstn_skipn.
    + rewrite length_skipn. lia.
Qed.

Lemma chunks_each : forall n k d c,
  length d = k * n -> In c (chunks n k d) -> length c = n.
Proof.
  induction k as [|k IH]; simpl; intros d c H Hin; [contradiction|].
  destruct Hin as [<-|Hin].
  - rewrite length_firstn. lia.
  - apply (IH (skipn n d)); auto. rewrite length_skipn. lia.
Qed.

Lemma stretch_same : forall s d, length d = size_of s -> stretch s s d = d.
Proof.
  induction s as [|k s IH]; intros d H; [reflexivity|].
  simpl. rewrite Nat.eqb_refl, flat_map_concat_map.
  simpl in H.
  rewrite (map_ext_in _ (fun c => c)).
  - rewrite map_id. now apply chunks_concat.
  - intros c Hc. apply IH. eapply chunks_each; eauto.
Qed.

Lemma broadcast_to_same : forall s d,
  length d = size_of s -> broadcast_to s s d = d.
Proof.
  intros s d H. unfold broadcast_to. rewrite Nat.sub_diag. simpl.
  now apply stretch_same.
Qed.

Lemma size_of_ones : forall n, size_of (repeat 1 n) = 1.
Proof. induction n; simpl; auto. rewrite IHn. reflexivity. Qed.

Lemma concat_repeat_repeat : forall (x : num) n e,
  concat (repeat (repeat x n) e) = repeat x (e * n).
Proof.
  induction e as [|e IH]; simpl; [reflexivity|].
  now rewrite IH, repeat_app.
Qed.

Lemma stretch_scalar : forall t (x : num),
  stretch t (repeat 1 (length t)) [x] = repeat x (size_of t).
Proof.
  induction t as [|e t IH]; intros x; [reflexivity|].
  destruct e as [|[|e]]; simpl.
  - reflexivity.
  - rewrite size_of_ones. simpl. rewrite IH, app_nil_r.
    now rewrite Nat.add_0_r.
  - rewrite IH. apply (concat_repeat_repeat x (size_of t) (S (S e))).
Qed.

Lemma broadcast_to_scalar : forall t (x : num),
  broadcast_to t [] [x] = repeat x (size_of t).
Proof.
  intros t x. unfold broadcast_to. simpl.
  rewrite Nat.sub_0_r, app_nil_r. apply stretch_scalar.
Qed.
End BroadcastFacts.

Section OrchestratorFacts.
Variable num : Type.
Variable of_int : Z -> num.
Variable world : Type.
Variable md :
  pyval num -> pyval num -> pyval num -> pyval num -> pyval num ->
  M world (pyval num).
Variable mc : num -> num -> num -> num * num.

Lemma vel_mag_correction_eq : forall u v lat lon t z zflag w,
  vel_mag_correction of_int md mc u v lat lon t z zflag w =
  match md lat lon t (default (PyFloat (of_int 0)) z)
           (default (PyInt (-1)) zflag) w with
  | (Ok theta, w') => (np_vectorize of_int mc theta u v, w')
  | (Raise e, w') => (Raise e, w')
  end.
Proof. reflexivity. Qed.

Lemma asarray_angles : forall sh theta,
  conforms sh theta ->
  size_of sh <> 0 ->
  exists st,
    asarray of_int theta = (st, match theta with
                                | PyInt n => [of_int n]
                                | PyFloat x => [x]
                                | NdArray _ d => d
                                end)
    /\ Nat.eqb (size_of st) 0 = false
    /\ broadcast_shapes3 st sh sh = Some sh
    /\ broadcast_to sh st (snd (asarray of_int theta)) =
       angles of_int sh theta.
Proof.
  intros sh [n|x|s d] Hc Hz; simpl in *.
  - exists []. repeat split; auto using broadcast_shapes3_scalar, broadcast_to_scalar.
  - exists []. repeat split; auto using broadcast_shapes3_scalar, broadcast_to_scalar.
  - destruct Hc as [-> Hl]. exists sh. repeat split.
    + now apply Nat.eqb_neq.
    + apply broadcast_shapes3_same.
    + now apply broadcast_to_same.
Qed.

Lemma np_vectorize_conforming : forall theta u v sh du dv,
  asarray of_int u = (sh, du) ->
  asarray of_int v = (sh, dv) ->
  length du = size_of sh ->
  length dv = size_of sh ->
  size_of sh <> 0 ->
  conforms sh theta ->
  np_vectorize of_int mc theta u v =
  Ok (NdArray sh (map fst (map3 mc (angles of_int sh theta) du dv)),
      NdArray sh (map snd (map3 mc (angles of_int sh theta) du dv))).
Proof.
  intros theta u v sh du dv Hu Hv Lu Lv Hz Hc.
  destruct (@asarray_angles sh theta Hc Hz) as (st & Ht & Hs & Hb & Hd).
  unfold np_vectorize. rewrite Ht, Hu, Hv. rewrite Ht in Hd. simpl in Hd.
  simpl existsb. rewrite Hs.
  apply Nat.eqb_neq in Hz. rewrite Hz. simpl.
  rewrite Hb, Hd, !broadcast_to_same by assumption.
  reflexivity.
Qed.

Lemma asarray_shape_elements : forall u,
  asarray of_int u = (shape_of u, elements of_int u).
Proof. intros [n|x|sh d]; reflexivity. Qed.

Lemma well_formed_length : forall u,
  well_formed u -> length (elements of_int u) = size_of (shape_of u).
Proof. intros [n|x|sh d] H; [reflexivity | reflexivity | exact H]. Qed.

Lemma np_vectorize_same_shape : forall theta u v,
  well_formed u ->
  well_formed v ->
  shape_of v = shape_of u ->
  size_of (shape_of u) <> 0 ->
  conforms (shape_of u) theta ->
  let outs := map3 mc (angles of_int (shape_of u) theta)
                   (elements of_int u) (elements of_int v) in
  np_vectorize of_int mc theta u v =
  Ok (NdArray (shape_of u) (map fst outs), NdArray (shape_of u) (map snd outs)).
Proof.
  intros theta u v Wu Wv Hs Hz Hc outs. subst outs.
  apply np_vectorize_conforming; auto using asarray_shape_elements,
                                  well_formed_length.
  - rewrite <- Hs. apply asarray_shape_elements.
  - rewrite <- Hs. now apply well_formed_length.
Qed.

(** An empty input is refused, whatever the other two are. *)
Lemma np_vectorize_empty : forall theta u v,
  size_of (shape_of u) = 0 ->
  np_vectorize of_int mc theta u v = Raise ValueError.
Proof.
  intros theta u v Hz. unfold np_vectorize.
  rewrite (asarray_shape_elements theta), (asarray_shape_elements u),
          (asarray_shape_elements v).
  simpl. rewrite Hz. simpl. now rewrite orb_true_r.
Qed.

Lemma logging_appends : forall u v lat lon t z zflag w log,
  snd (snd (vel_mag_correction of_int (logging md) mc u v lat lon t z zflag
              (w, log))) =
  log ++ [mkQuery lat lon t (default (PyFloat (of_int 0)) z)
                  (default (PyInt (-1)) zflag)].
Proof.
  intros. unfold vel_mag_correction, bind, lift, logging. simpl.
  destruct (md lat lon t _ _ w) as [[theta|e] w']; reflexivity.
Qed.
End OrchestratorFacts.

(** ** The validators *)

Lemma np_any_map : forall (A : Type) (p : A -> bool) l,
  np_any (map p l) = existsb p l.
Proof.
  intros A p l. unfold np_any. induction l as [|a l IH]; simpl; [reflexivity|].
  now rewrite IH.
Qed.

Lemma existsb_orb : forall (A : Type) (p q : A -> bool) l,
  existsb (fun x => p x || q x) l = existsb p l || existsb q l.
Proof.
  intros A p q l. induction l as [|a l IH]; simpl; [reflexivity|].
  rewrite IH. destruct (p a), (q a), (existsb p l), (existsb q l); reflexivity.
Qed.

Lemma valid_lat_array : forall sh d,
  valid_lat (NdArray sh d) =
  negb (existsb (fun x => (x <? -90) || (90 <? x))%float d).
Proof.
  intros sh d. unfold valid_lat. rewrite !np_any_map, existsb_orb.
  destruct (existsb _ d), (existsb _ d); reflexivity.
Qed.

Lemma valid_lon_array : forall sh d,
  valid_lon (NdArray sh d) =
  negb (existsb (fun x => (x <? -180) || (180 <? x))%float d).
Proof.
  intros sh d. unfold valid_lon. rewrite !np_any_map, existsb_orb.
  destruct (existsb _ d), (existsb _ d); reflexivity.
Qed.

Lemma outside_not_within : forall lo hi x,
  ((x <? lo) || (hi <? x))%float = true -> within lo hi x = false.
Proof.
  intros lo hi x H. unfold within.
  apply orb_true_iff in H as [H|H].
  - apply ltb_true_leb_false in H. now rewrite H.
  - apply ltb_true_leb_false in H. rewrite H. apply andb_false_r.
Qed.

Lemma lat_outside_invalid : forall lat,
  lat_outside lat = true -> valid_lat lat = false.
Proof.
  intros [n|x|sh d] H; simpl in H.
  - simpl. apply orb_true_iff in H as [H|H]; apply Z.ltb_lt in H.
    + apply andb_false_iff. left. apply Z.leb_gt. lia.
    + apply andb_false_iff. right. apply Z.leb_gt. lia.
  - now apply outside_not_within.
  - rewrite valid_lat_array, H. reflexivity.
Qed.

Lemma lon_outside_invalid : forall lon,
  lon_outside lon = true -> valid_lon lon = false.
Proof.
  intros [n|x|sh d] H; simpl in H.
  - simpl. apply orb_true_iff in H as [H|H]; apply Z.ltb_lt in H.
    + apply andb_false_iff. left. apply Z.leb_gt. lia.
    + apply andb_false_iff. right. apply Z.leb_gt. lia.
  - now apply outside_not_within.
  - rewrite valid_lon_array, H. reflexivity.
Qed.

(** ** The wrappers *)

Lemma sentinel_computed : forall sh,
  np_mul_int (np_ones sh) (-9999) = sentinel sh.
Proof.
  intros [|k sh]; [reflexivity|].
  unfold np_mul_int, np_ones, sentinel, fill_array. f_equal.
  induction (size_of (k :: sh)) as [|n IH]; simpl; [reflexivity|].
  now rewrite IH.
Qed.

Lemma sentinel_shape : forall sh, shape_of (sentinel sh) = sh.
Proof. intros [|k sh]; reflexivity. Qed.

Lemma sentinel_elements : forall sh,
  elements float_of_Z (sentinel sh) = repeat (-9999)%float (size_of sh).
Proof. intros [|k sh]; reflexivity. Qed.

Lemma bind_ret_component : forall W A B (c : M W A) (g : A -> B) w,
  (r <- c ;; ret (g r)) w = component g (c w).
Proof.
  intros. unfold bind, ret, component. destruct (c w) as [[r|e] w']; reflexivity.
Qed.

Ltac outline :=
  intros md mc u v lat lon t z w;
  cbv beta zeta delta [nobska_mag_corr_east nobska_mag_corr_north
                       nortek_mag_corr_east nortek_mag_corr_north];
  destruct (negb (valid_lat lat) || negb (valid_lon lon));
  [ unfold bind, lift, ret; destruct (shape_attr u); reflexivity
  | apply bind_ret_component ].

Lemma nobska_east_outline : forall W,
  wrapper_outline (@nobska_mag_corr_east W) (fun r => ne_div (fst r) 100) (PyInt 0).
Proof. intros W. unfold wrapper_outline. outline. Qed.

Lemma nobska_north_outline : forall W,
  wrapper_outline (@nobska_mag_corr_north W) (fun r => ne_div (snd r) 100) (PyInt 0).
Proof. intros W. unfold wrapper_outline. outline. Qed.

Lemma nortek_east_outline : forall W,
  wrapper_outline (@nortek_mag_corr_east W) fst (PyFloat 0%float).
Proof. intros W. unfold wrapper_outline. outline. Qed.

Lemma nortek_north_outline : forall W,
  wrapper_outline (@nortek_mag_corr_north W) snd (PyFloat 0%float).
Proof. intros W. unfold wrapper_outline. outline. Qed.

Lemma wrappers_outline : forall W f,
  In f (@wrappers W) ->
  exists g z0,
    (z0 = PyInt 0 \/ z0 = PyFloat 0%float) /\ wrapper_outline f g z0.
Proof.
  intros W f [<-|[<-|[<-|[<-|[]]]]]; do 2 eexists.
  - split; [left; reflexivity | apply nobska_east_outline].
  - split; [left; reflexivity | apply nobska_north_outline].
  - split; [right; reflexivity | apply nortek_east_outline].
  - split; [right; reflexivity | apply nortek_north_outline].
Qed.

Lemma np_vectorize_arrays :
  forall num (of_int : Z -> num) mc theta u v a b,
    np_vectorize of_int mc theta u v = Ok (a, b) ->
    exists su da sv db, a = NdArray su da /\ b = NdArray sv db.
Proof.
  intros num of_int mc theta u v a b H. unfold np_vectorize in H.
  destruct (asarray of_int theta) as [st dt], (asarray of_int u) as [su du],
           (asarray of_int v) as [sv dv].
  destruct (existsb _ _); [discriminate|].
  destruct (broadcast_shapes3 st su sv) as [sh|]; [|discriminate].
  injection H as <- <-. do 4 eexists. split; reflexivity.
Qed.

Lemma orchestrator_returns_arrays :
  forall num (of_int : Z -> num) W
         (md : pyval num -> pyval num -> pyval num -> pyval num ->
               pyval num -> M W (pyval num))
         mc u v lat lon t z zflag w a b w',
    vel_mag_correction of_int md mc u v lat lon t z zflag w = (Ok (a, b), w') ->
    exists su da sv db, a = NdArray su da /\ b = NdArray sv db.
Proof.
  intros num of_int W md mc u v lat lon t z zflag w a b w' H.
  rewrite vel_mag_correction_eq in H.
  destruct (md _ _ _ _ _ w) as [[theta|e] w1]; [|discriminate].
  injection H as H _. eapply np_vectorize_arrays; eauto.
Qed.

Lemma invalid_branch : forall W f,
  In f (@wrappers W) ->
  forall md mc u v lat lon t z w,
    valid_lat lat = false \/ valid_lon lon = false ->
    f md mc u v lat lon t z w =
    (match shape_attr u with
     | Ok sh => Ok (sentinel sh)
     | Raise e => Raise e
     end, w).
Proof.
  intros W f Hf md mc u v lat lon t z w Hbad.
  destruct (wrappers_outline _ f Hf) as (g & z0 & _ & Hout).
  rewrite Hout.
  assert (negb (valid_lat lat) || negb (valid_lon lon) = true) as ->.
  { destruct Hbad as [-> | ->]; [reflexivity | apply orb_true_r]. }
  destruct (shape_attr u); [now rewrite sentinel_computed | reflexivity].
Qed.

(** C1.  When some element of the latitude lies outside [-90, 90] or some
    element of the longitude lies outside [-180, 180], each of the four
    wrappers, called with an array [u] of shape [sh], returns the sentinel of
    that shape: its shape is [sh] and every one of its elements is -9999 (an
    array filled with -9999; for a 0-dimensional [u] NumPy hands the one
    element back as a scalar).  The state is left as it was found, and this
    for every provider [md], also one that raises or records its calls: so
    neither the provider nor [vel_mag_correction] (which always asks the
    provider) has been called.  [v], the other coordinate, the timestamp and
    [z] are arbitrary. *)
Theorem invalid_position_fill : forall W f,
  In f (@wrappers W) ->
  forall md mc sh d v lat lon t z w,
    lat_outside lat = true \/ lon_outside lon = true ->
    f md mc (NdArray sh d) v lat lon t z w = (Ok (sentinel sh), w)
    /\ shape_of (sentinel sh) = sh
    /\ elements float_of_Z (sentinel sh) = repeat (-9999)%float (size_of sh).
Proof.
  intros W f Hf md mc sh d v lat lon t z w Hout.
  split; [|split; [apply sentinel_shape | apply sentinel_elements]].
  rewrite (invalid_branch _ f Hf); [reflexivity|].
  destruct Hout as [H|H];
    [left; now apply lat_outside_invalid | right; now apply lon_outside_invalid].
Qed.

(** C9.  In the invalid-position branch every wrapper reads [u.shape]: when
    [u] is a Python scalar and a validator rejects the position, each of the
    four wrappers raises [AttributeError] (and returns no sentinel), the
    state being untouched. *)
Theorem scalar_velocity_raises : forall W f,
  In f (@wrappers W) ->
  forall md mc u v lat lon t z w,
    is_scalar u = true ->
    valid_lat lat = false \/ valid_lon lon = false ->
    f md mc u v lat lon t z w = (Raise AttributeError, w).
Proof.
  intros W f Hf md mc u v lat lon t z w Hs Hbad.
  rewrite (invalid_branch _ f Hf) by assumption.
  destruct u; [reflexivity | reflexivity | discriminate].
Qed.

(** C3.  For a position that both validators accept, each wrapper returns
    the corresponding component of
    [vel_mag_correction(u, v, lat, lon, timestamp, z)], in the state the
    orchestrator left: the east wrappers component 0, the north wrappers
    component 1.  The Nobska wrappers return every element multiplied by the
    binary64 value of 1/100 (centimetres to metres), the Nortek wrappers
    return the elements as they are (factor 1).  When the orchestrator
    raises, the wrapper raises the same exception. *)
Theorem valid_position_scaled_component :
  forall W md mc u v lat lon t z (w : W),
    valid_lat lat = true ->
    valid_lon lon = true ->
    let orchestrated z0 :=
      vel_mag_correction float_of_Z md mc u v lat lon t
                         (Some (default z0 z)) None w in
    let per_100 := map (fun x => x * (1 / 100))%float in
    match orchestrated (PyInt 0) with
    | (Ok (NdArray su u_cor, NdArray sv v_cor), w') =>
        nobska_mag_corr_east md mc u v lat lon t z w =
          (Ok (NdArray su (per_100 u_cor)), w')
        /\ nobska_mag_corr_north md mc u v lat lon t z w =
          (Ok (NdArray sv (per_100 v_cor)), w')
    | (Ok _, _) => False
    | (Raise e, w') =>
        nobska_mag_corr_east md mc u v lat lon t z w = (Raise e, w')
        /\ nobska_mag_corr_north md mc u v lat lon t z w = (Raise e, w')
    end
    /\ match orchestrated (PyFloat 0%float) with
       | (Ok (NdArray su u_cor, NdArray sv v_cor), w') =>
           nortek_mag_corr_east md mc u v lat lon t z w =
             (Ok (NdArray su u_cor), w')
           /\ nortek_mag_corr_north md mc u v lat lon t z w =
             (Ok (NdArray sv v_cor), w')
       | (Ok _, _) => False
       | (Raise e, w') =>
           nortek_mag_corr_east md mc u v lat lon t z w = (Raise e, w')
           /\ nortek_mag_corr_north md mc u v lat lon t z w = (Raise e, w')
       end.
Proof.
  intros W md mc u v lat lon t z w Hlat Hlon orchestrated per_100.
  subst orchestrated per_100.
  rewrite (@nobska_east_outline W), (@nobska_north_outline W),
          (@nortek_east_outline W), (@nortek_north_outline W).
  rewrite Hlat, Hlon. cbn [negb orb].
  split.
  - destruct (vel_mag_correction _ _ _ _ _ _ _ _ (Some (default (PyInt 0) z)) _ _)
      as [[[a b]|e] w'] eqn:E; [|split; reflexivity].
    destruct (orchestrator_returns_arrays _ _ _ _ _ _ _ _ _ _ _ _ _ _ _ _ E)
      as (su & da & sv & db & -> & ->).
    split; reflexivity.
  - destruct (vel_mag_correction _ _ _ _ _ _ _ _
                (Some (default (PyFloat 0%float) z)) _ _)
      as [[[a b]|e] w'] eqn:E; [|split; reflexivity].
    destruct (orchestrator_returns_arrays _ _ _ _ _ _ _ _ _ _ _ _ _ _ _ _ E)
      as (su & da & sv & db & -> & ->).
    split; reflexivity.
Qed.


Lemma component_world : forall W A B (g : A -> B) (o : result A * W),
  snd (component g o) = snd o.
Proof. intros W A B g [[r|e] w]; reflexivity. Qed.




(** ** The validators and NaN *)

Lemma not_outside_within : forall lo hi x,
  is_nan lo = false -> is_nan hi = false -> is_nan x = false ->
  within lo hi x = negb ((x <? lo) || (hi <? x))%float.
Proof.
  intros lo hi x Hlo Hhi Hx. unfold within.
  rewrite (ltb_negb_leb lo x Hlo Hx), (ltb_negb_leb x hi Hx Hhi).
  destruct (lo <=? x)%float, (x <=? hi)%float; reflexivity.
Qed.

Lemma forallb_negb_existsb : forall (A : Type) (p : A -> bool) l,
  forallb (fun x => negb (p x)) l = negb (existsb p l).
Proof.
  intros A p l. induction l as [|a l IH]; simpl; [reflexivity|].
  rewrite IH. now destruct (p a).
Qed.

Lemma valid_scalar_within : forall x,
  valid_lat (PyFloat x) = within (-90) 90 x
  /\ valid_lon (PyFloat x) = within (-180) 180 x.
Proof. intros x. split; reflexivity. Qed.

Lemma valid_lat_array_without_nan : forall sh d,
  forallb (fun x => negb (is_nan x)) d = true ->
  valid_lat (NdArray sh d) = forallb (within (-90) 90) d.
Proof.
  intros sh d H. rewrite valid_lat_array, <- forallb_negb_existsb.
  induction d as [|x d IH]; simpl in *; [reflexivity|].
  apply andb_true_iff in H as [Hx Hd]. apply negb_true_iff in Hx.
  rewrite (IH Hd). f_equal. symmetry. now apply not_outside_within.
Qed.

Lemma valid_lon_array_without_nan : forall sh d,
  forallb (fun x => negb (is_nan x)) d = true ->
  valid_lon (NdArray sh d) = forallb (within (-180) 180) d.
Proof.
  intros sh d H. rewrite valid_lon_array, <- forallb_negb_existsb.
  induction d as [|x d IH]; simpl in *; [reflexivity|].
  apply andb_true_iff in H as [Hx Hd]. apply negb_true_iff in Hx.
  rewrite (IH Hd). f_equal. symmetry. now apply not_outside_within.
Qed.

(** C2.  Where the validators leave their contract: a latitude array (and a
    longitude array) whose only element is NaN is accepted, although NaN lies
    in no interval, and although the scalar branch of the same function
    rejects NaN.  (For scalars, and for arrays without NaN, the verdict is
    "every element within the bounds": [valid_scalar_within],
    [valid_lat_array_without_nan], [valid_lon_array_without_nan].) *)
Theorem nan_array_passes_validation :
  valid_lat (NdArray [1] [nan]) = true
  /\ within (-90) 90 nan = false
  /\ valid_lat (PyFloat nan) = false
  /\ valid_lon (NdArray [1] [nan]) = true
  /\ within (-180) 180 nan = false
  /\ valid_lon (PyFloat nan) = false.
Proof. repeat split; reflexivity. Qed.

Lemma existsb_skip : forall (A : Type) (p : A -> bool) a d1 d2,
  p a = false -> existsb p (d1 ++ a :: d2) = existsb p (d1 ++ d2).
Proof.
  intros A p a d1 d2 H. rewrite !existsb_app. simpl. now rewrite H.
Qed.

Lemma existsb_repeat_false : forall (A : Type) (p : A -> bool) a n,
  p a = false -> existsb p (repeat a n) = false.
Proof.
  intros A p a n H. induction n as [|n IH]; simpl; [reflexivity|].
  now rewrite H, IH.
Qed.

(** C8.  For an array the validators only test [x < lower] and [x > upper]:
    the array is accepted exactly when no element passes one of these strict
    tests.  So a NaN element never makes an array invalid (removing it does
    not change the verdict, and an array of NaN only is accepted), whereas a
    scalar NaN is rejected. *)
Theorem nan_array_scalar_disagree :
  (forall sh d,
      valid_lat (NdArray sh d) =
      negb (existsb (fun x => (x <? -90) || (90 <? x))%float d))
  /\ (forall sh d,
      valid_lon (NdArray sh d) =
      negb (existsb (fun x => (x <? -180) || (180 <? x))%float d))
  /\ (forall sh sh' d1 d2,
      valid_lat (NdArray sh (d1 ++ nan :: d2)) = valid_lat (NdArray sh' (d1 ++ d2)))
  /\ (forall sh sh' d1 d2,
      valid_lon (NdArray sh (d1 ++ nan :: d2)) = valid_lon (NdArray sh' (d1 ++ d2)))
  /\ (forall sh n, valid_lat (NdArray sh (repeat nan n)) = true)
  /\ (forall sh n, valid_lon (NdArray sh (repeat nan n)) = true)
  /\ valid_lat (PyFloat nan) = false
  /\ valid_lon (PyFloat nan) = false.
Proof.
  split; [exact valid_lat_array|].
  split; [exact valid_lon_array|].
  split; [|split; [|split; [|split; [|split; reflexivity]]]].
  - intros. rewrite !valid_lat_array. f_equal. now apply existsb_skip.
  - intros. rewrite !valid_lon_array. f_equal. now apply existsb_skip.
  - intros. rewrite valid_lat_array. now rewrite existsb_repeat_false.
  - intros. rewrite valid_lon_array. now rewrite existsb_repeat_false.
Qed.

(** C5, as amended.  [vel_mag_correction] never looks at [lat] and [lon]
    (they are arbitrary here and only handed to the provider), and converts
    no unit.  When the provider returns an angle [theta], [u] and [v] are
    non-empty and of one shape [sh], and [theta] is a scalar or has the shape
    [sh] too, it returns two arrays of shape [sh], whose elements are what
    [magnetic_correction] returns for the corresponding angle and velocity
    pair, in the state the provider left. *)
Theorem orchestrator_shape_and_units :
  forall num (of_int : Z -> num) W
         (md : pyval num -> pyval num -> pyval num -> pyval num ->
               pyval num -> M W (pyval num))
         mc u v lat lon t z zflag w theta w',
    md lat lon t (default (PyFloat (of_int 0%Z)) z)
       (default (PyInt (-1)%Z) zflag) w = (Ok theta, w') ->
    well_formed u ->
    well_formed v ->
    shape_of v = shape_of u ->
    size_of (shape_of u) <> 0 ->
    conforms (shape_of u) theta ->
    let outs := map3 mc (angles of_int (shape_of u) theta)
                     (elements of_int u) (elements of_int v) in
    vel_mag_correction of_int md mc u v lat lon t z zflag w =
    (Ok (NdArray (shape_of u) (map fst outs),
         NdArray (shape_of u) (map snd outs)), w').
Proof.
  intros num of_int W md mc u v lat lon t z zflag w theta w'
         Hmd Wu Wv Hs Hz Hc outs.
  rewrite vel_mag_correction_eq, Hmd. subst outs.
  now rewrite (np_vectorize_same_shape _ of_int mc theta u v).
Qed.

(** C5 as stated fails: one velocity sample and two positions, for which the
    provider returns two angles, give outputs of shape (2,), not (1,). *)
Lemma orchestrator_shape_counterexample :
  match vel_mag_correction float_of_Z (Stub.uniform_field 90) Stub.quarter_turns
          (NdArray [1] [1%float]) (NdArray [1] [0%float])
          (NdArray [2] [45%float; 46%float]) (PyFloat (-125)%float)
          (PyFloat 0%float) None None tt
  with
  | (Ok (u_cor, v_cor), _) =>
      shape_of u_cor = [2] /\ shape_of v_cor = [2] /\
      shape_of u_cor <> shape_of (NdArray [1] [1%float])
  | (Raise _, _) => False
  end.
Proof. vm_compute. repeat split. discriminate. Qed.

(** ** The rotation on real numbers *)

Lemma rotation_magnitude : forall theta u v : R,
  Ideal.magnitude (Ideal.magnetic_correction theta u v) = Ideal.magnitude (u, v).
Proof.
  intros theta u v. unfold Ideal.magnitude, Ideal.magnetic_correction. simpl.
  f_equal.
  pose proof (sin2_cos2 (theta * PI / 180)) as H. unfold Rsqr in H.
  set (s := sin (theta * PI / 180)) in *.
  set (c := cos (theta * PI / 180)) in *.
  replace ((u * c - v * s) * (u * c - v * s) + (u * s + v * c) * (u * s + v * c))%R
    with ((u * u + v * v) * (s * s + c * c))%R by ring.
  rewrite H. ring.
Qed.

Lemma rotation_zero : forall u v : R,
  Ideal.magnetic_correction 0 u v = (u, v).
Proof.
  intros u v. unfold Ideal.magnetic_correction.
  replace (0 * PI / 180)%R with 0%R by (unfold Rdiv; ring).
  rewrite cos_0, sin_0. f_equal; ring.
Qed.

Section Zipped.
Variable num : Type.
Variable mc : num -> num -> num -> num * num.


Lemma combine_fst_snd : forall (l : list (num * num)),
  combine (map fst l) (map snd l) = l.
Proof.
  induction l as [|[a b] l IH]; simpl; [reflexivity|]. now rewrite IH.
Qed.

Lemma map3_pointwise : forall (B : Type) (g : num * num -> B) th du dv,
  length th = length du -> length dv = length du ->
  (forall a x y, In a th -> g (mc a x y) = g (x, y)) ->
  map g (map3 mc th du dv) = map g (combine du dv).
Proof.
  intros B g. unfold map3.
  induction th as [|a th IH]; intros [|x du] [|y dv] H1 H2 Hg;
    simpl in *; try discriminate; [reflexivity|].
  rewrite Hg by auto. f_equal. apply IH; auto.
Qed.
End Zipped.

Lemma map_fst_combine : forall (A B : Type) (a : list A) (b : list B),
  length a = length b -> map fst (combine a b) = a.
Proof.
  induction a as [|x a IH]; intros [|y b] H; simpl in *;
    try discriminate; [reflexivity|].
  f_equal. apply IH. lia.
Qed.

Lemma map_snd_combine : forall (A B : Type) (a : list A) (b : list B),
  length a = length b -> map snd (combine a b) = b.
Proof.
  induction a as [|x a IH]; intros [|y b] H; simpl in *;
    try discriminate; [reflexivity|].
  f_equal. apply IH. lia.
Qed.

Lemma length_angles : forall num (of_int : Z -> num) sh theta,
  conforms sh theta -> length (angles of_int sh theta) = size_of sh.
Proof.
  intros num of_int sh [n|x|s d] H; simpl; try apply repeat_length.
  now destruct H.
Qed.

(** C6.  The rotation of the specification, on real numbers: it keeps the
    Euclidean length of every velocity pair, and the angle 0 leaves the pair
    as it is.  Applied by [vel_mag_correction] to non-empty arrays [u] and [v]
    of one shape, with an angle that is a scalar or has that shape, every
    corrected pair has the length of the pair it comes from, and angles that
    are all 0 give back [u] and [v]. *)
Theorem rotation_preserves_magnitude :
  forall W (md : pyval R -> pyval R -> pyval R -> pyval R -> pyval R ->
                 M W (pyval R))
         u v lat lon t z zflag w theta w',
    md lat lon t (default (PyFloat (IZR 0)) z)
       (default (PyInt (-1)%Z) zflag) w = (Ok theta, w') ->
    well_formed u ->
    well_formed v ->
    shape_of v = shape_of u ->
    size_of (shape_of u) <> 0 ->
    conforms (shape_of u) theta ->
    (forall a x y,
        Ideal.magnitude (Ideal.magnetic_correction a x y) = Ideal.magnitude (x, y))
    /\ (forall x y, Ideal.magnetic_correction 0 x y = (x, y))
    /\ exists u_cor v_cor,
        vel_mag_correction IZR md Ideal.magnetic_correction
                           u v lat lon t z zflag w =
        (Ok (NdArray (shape_of u) u_cor, NdArray (shape_of u) v_cor), w')
        /\ map Ideal.magnitude (combine u_cor v_cor) =
           map Ideal.magnitude (combine (elements IZR u) (elements IZR v))
        /\ (Forall (fun a => a = 0%R) (angles IZR (shape_of u) theta) ->
            u_cor = elements IZR u /\ v_cor = elements IZR v).
Proof.
  intros W md u v lat lon t z zflag w theta w' Hmd Wu Wv Hs Hz Hc.
  split; [exact rotation_magnitude|]. split; [exact rotation_zero|].
  pose proof (length_angles R IZR (shape_of u) theta Hc) as La.
  pose proof (well_formed_length R IZR u Wu) as Lu.
  pose proof (well_formed_length R IZR v Wv) as Lv. rewrite Hs in Lv.
  do 2 eexists. split; [|split].
  - rewrite vel_mag_correction_eq, Hmd.
    now rewrite (np_vectorize_same_shape _ IZR Ideal.magnetic_correction
                   theta u v).
  - rewrite combine_fst_snd. apply map3_pointwise; try congruence.
    intros. apply rotation_magnitude.
  - intros Hzero.
    assert (map (fun p => p) (map3 Ideal.magnetic_correction
                                  (angles IZR (shape_of u) theta)
                                  (elements IZR u) (elements IZR v)) =
            map (fun p => p) (combine (elements IZR u) (elements IZR v))) as E.
    { apply map3_pointwise; try congruence.
      intros a x y Ha. rewrite Forall_forall in Hzero.
      rewrite (Hzero a Ha). apply rotation_zero. }
    rewrite !map_id in E. rewrite E.
    split; [apply map_fst_combine | apply map_snd_combine]; congruence.
Qed.

(** ** The theorems at concrete inputs *)

(** A latitude of 91 with a 2x1 array [u], a NaN [v] and a provider that would
    raise: the sentinel comes back and nothing was recorded. *)
Lemma invalid_position_fill_witness :
  lat_outside (PyInt 91) = true
  /\ nortek_mag_corr_north (logging Stub.out_of_domain) Stub.quarter_turns
       (NdArray [2; 1] [3%float; 4%float]) (PyFloat nan) (PyInt 91)
       (PyFloat 500%float) (PyFloat 0%float) None Stub.start =
     (Ok (NdArray [2; 1] [(-9999)%float; (-9999)%float]), Stub.start).
Proof.
  split; [reflexivity|].
  apply (invalid_position_fill _ (@nortek_mag_corr_north _)
           (or_intror (or_intror (or_intror (or_introl eq_refl))))
           (logging Stub.out_of_domain) Stub.quarter_turns
           [2; 1] [3%float; 4%float] (PyFloat nan) (PyInt 91)
           (PyFloat 500%float) (PyFloat 0%float) None Stub.start).
  left. reflexivity.
Defined.


Lemma scalar_velocity_raises_witness :
  is_scalar (PyFloat 100%float) = true
  /\ valid_lon (PyInt (-181)) = false
  /\ nobska_mag_corr_east (logging (Stub.uniform_field 90)) Stub.quarter_turns
       (PyFloat 100%float) (PyFloat 0%float) (PyInt 45) (PyInt (-181))
       (PyFloat 0%float) None Stub.start =
     (Raise AttributeError, Stub.start).
Proof.
  split; [reflexivity|]. split; [reflexivity|].
  apply (scalar_velocity_raises _ (@nobska_mag_corr_east _)).
  - left. reflexivity.
  - reflexivity.
  - right. reflexivity.
Defined.

Lemma valid_position_scaled_component_witness :
  (nobska_mag_corr_east (logging (Stub.uniform_field 90)) Stub.quarter_turns
     (NdArray [2] [100%float; 50%float]) (NdArray [2] [0%float; 10%float])
     (PyInt 45) (PyInt (-125)) (PyFloat 0%float) None Stub.start =
   (Ok (NdArray [2] (map (fun x => x * (1 / 100))%float
                         [(-0)%float; (-10)%float])),
    (tt, [mkQuery (PyInt 45) (PyInt (-125)) (PyFloat 0%float) (PyInt 0)
                  (PyInt (-1))]))
   /\ nobska_mag_corr_north (logging (Stub.uniform_field 90))
        Stub.quarter_turns
        (NdArray [2] [100%float; 50%float]) (NdArray [2] [0%float; 10%float])
        (PyInt 45) (PyInt (-125)) (PyFloat 0%float) None Stub.start =
      (Ok (NdArray [2] (map (fun x => x * (1 / 100))%float
                            [100%float; 50%float])),
       (tt, [mkQuery (PyInt 45) (PyInt (-125)) (PyFloat 0%float) (PyInt 0)
                     (PyInt (-1))])))
  /\ (nortek_mag_corr_east (logging (Stub.uniform_field 90))
        Stub.quarter_turns
        (NdArray [2] [100%float; 50%float]) (NdArray [2] [0%float; 10%float])
        (PyInt 45) (PyInt (-125)) (PyFloat 0%float) None Stub.start =
      (Ok (NdArray [2] [(-0)%float; (-10)%float]),
       (tt, [mkQuery (PyInt 45) (PyInt (-125)) (PyFloat 0%float)
                     (PyFloat 0%float) (PyInt (-1))]))
      /\ nortek_mag_corr_north (logging (Stub.uniform_field 90))
           Stub.quarter_turns
           (NdArray [2] [100%float; 50%float])
           (NdArray [2] [0%float; 10%float])
           (PyInt 45) (PyInt (-125)) (PyFloat 0%float) None Stub.start =
         (Ok (NdArray [2] [100%float; 50%float]),
          (tt, [mkQuery (PyInt 45) (PyInt (-125)) (PyFloat 0%float)
                        (PyFloat 0%float) (PyInt (-1))]))).
Proof.
  exact (valid_position_scaled_component _ (logging (Stub.uniform_field 90))
           Stub.quarter_turns
           (NdArray [2] [100%float; 50%float])
           (NdArray [2] [0%float; 10%float])
           (PyInt 45) (PyInt (-125)) (PyFloat 0%float) None Stub.start
           eq_refl eq_refl).
Defined.




Lemma orchestrator_shape_and_units_witness :
  vel_mag_correction float_of_Z (Stub.uniform_field 90) Stub.quarter_turns
    (NdArray [2] [100%float; 50%float]) (NdArray [2] [0%float; 10%float])
    (PyInt 91) (PyInt (-125)) (PyFloat 0%float) None None tt =
  (Ok (NdArray [2] [(-0)%float; (-10)%float],
       NdArray [2] [100%float; 50%float]), tt).
Proof.
  apply (orchestrator_shape_and_units float float_of_Z unit
           (Stub.uniform_field 90) Stub.quarter_turns
           (NdArray [2] [100%float; 50%float])
           (NdArray [2] [0%float; 10%float])
           (PyInt 91) (PyInt (-125)) (PyFloat 0%float) None None tt
           (PyFloat 90%float) tt);
    try reflexivity; discriminate.
Defined.

Lemma rotation_preserves_magnitude_witness :
  exists u_cor v_cor,
    vel_mag_correction IZR (Ideal.fixed_angle 30) Ideal.magnetic_correction
      (NdArray [2] [3%R; 0%R]) (NdArray [2] [4%R; 1%R])
      (PyInt 45) (PyInt (-125)) (PyInt 0) None None tt =
    (Ok (NdArray [2] u_cor, NdArray [2] v_cor), tt)
    /\ map Ideal.magnitude (combine u_cor v_cor) =
       map Ideal.magnitude (combine [3%R; 0%R] [4%R; 1%R])
    /\ (Forall (fun a => a = 0%R) (angles IZR [2] (PyFloat 30%R)) ->
        u_cor = [3%R; 0%R] /\ v_cor = [4%R; 1%R]).
Proof.
  apply (rotation_preserves_magnitude unit (Ideal.fixed_angle 30)
           (NdArray [2] [3%R; 0%R]) (NdArray [2] [4%R; 1%R])
           (PyInt 45) (PyInt (-125)) (PyInt 0) None None tt
           (PyFloat 30%R) tt);
    try reflexivity; discriminate.
Defined.

(** * Further properties *)

(** ** Broadcasting keeps arrays well formed *)

Lemma broadcast_dim_fits : forall x y d,
  broadcast_dim x y = Some d -> dim_fits d x /\ dim_fits d y.
Proof.
  intros x y d. unfold broadcast_dim, dim_fits.
  destruct (Nat.eqb_spec x y) as [E | _];
    [intros H; injection H as <-; subst; auto|].
  destruct (Nat.eqb_spec x 1) as [E | _];
    [intros H; injection H as <-; subst; auto|].
  destruct (Nat.eqb_spec y 1) as [E | _];
    [intros H; injection H as <-; subst; auto|].
  discriminate.
Qed.

Lemma dim_fits_trans : forall e d k, dim_fits e d -> dim_fits d k -> dim_fits e k.
Proof. unfold dim_fits. intros e d k [H1|H1] [H2|H2]; subst; auto. Qed.

Lemma broadcast_rev_fits : forall a b r,
  broadcast_rev a b = Some r ->
  Forall2 dim_fits r (a ++ repeat 1 (length r - length a))
  /\ Forall2 dim_fits r (b ++ repeat 1 (length r - length b)).
Proof.
  assert (R : forall l, Forall2 dim_fits l l).
  { induction l; constructor; auto. now left. }
  assert (P : forall l, Forall2 dim_fits l (repeat 1 (length l))).
  { induction l; simpl; constructor; auto. now right. }
  induction a as [|x a IH]; intros b r H.
  - simpl in H. injection H as <-. simpl. rewrite Nat.sub_0_r, Nat.sub_diag.
    rewrite app_nil_r. auto.
  - destruct b as [|y b].
    + simpl in H. injection H as <-. rewrite Nat.sub_diag, app_nil_r.
      simpl. auto.
    + simpl in H.
      destruct (broadcast_dim x y) as [d|] eqn:D; [|discriminate].
      destruct (broadcast_rev a b) as [r'|] eqn:E; [|discriminate].
      injection H as <-.
      destruct (broadcast_dim_fits _ _ _ D) as [Fx Fy].
      destruct (IH _ _ E) as [Fa Fb].
      simpl. split; constructor; auto.
Qed.

Lemma Forall2_rev_both : forall (A B : Type) (P : A -> B -> Prop) l l',
  Forall2 P l l' -> Forall2 P (rev l) (rev l').
Proof.
  induction 1; simpl; [constructor|].
  apply Forall2_app; auto.
Qed.

Lemma Forall2_fits_trans : forall t m s,
  Forall2 dim_fits t m -> Forall2 dim_fits m s -> Forall2 dim_fits t s.
Proof.
  intros t m s H. revert s.
  induction H as [|e d t m Hed _ IH]; intros s Hs; inversion Hs; subst;
    constructor; eauto using dim_fits_trans.
Qed.


Lemma broadcast_shapes_fits : forall a b t,
  broadcast_shapes a b = Some t -> fits t a /\ fits t b.
Proof.
  intros a b t H. unfold broadcast_shapes in H.
  destruct (broadcast_rev (rev a) (rev b)) as [r|] eqn:E; [|discriminate].
  injection H as <-.
  destruct (broadcast_rev_fits _ _ _ E) as [Fa Fb].
  assert (La : length (rev a) <= length r).
  { apply Forall2_length in Fa. rewrite length_app in Fa. lia. }
  assert (Lb : length (rev b) <= length r).
  { apply Forall2_length in Fb. rewrite length_app in Fb. lia. }
  rewrite length_rev in *.
  unfold fits. rewrite length_rev.
  split; (split; [assumption|]).
  - apply Forall2_rev_both in Fa.
    now rewrite rev_app_distr, rev_repeat, rev_involutive in Fa.
  - apply Forall2_rev_both in Fb.
    now rewrite rev_app_distr, rev_repeat, rev_involutive in Fb.
Qed.

Lemma fits_trans : forall t m s, fits t m -> fits m s -> fits t s.
Proof.
  assert (O : forall n, Forall2 dim_fits (repeat 1 n) (repeat 1 n)).
  { induction n; simpl; constructor; auto. now left. }
  intros t m s [Ltm Ftm] [Lms Fms]. split; [lia|].
  replace (length t - length s)
    with ((length t - length m) + (length m - length s)) by lia.
  rewrite repeat_app, <- app_assoc.
  eapply Forall2_fits_trans; [exact Ftm|].
  apply Forall2_app; [apply O | exact Fms].
Qed.

Lemma broadcast_shapes3_fits : forall a b c t,
  broadcast_shapes3 a b c = Some t -> fits t a /\ fits t b /\ fits t c.
Proof.
  intros a b c t H. unfold broadcast_shapes3 in H.
  destruct (broadcast_shapes a b) as [ab|] eqn:E; [|discriminate].
  destruct (broadcast_shapes_fits _ _ _ E) as [Fa Fb].
  destruct (broadcast_shapes_fits _ _ _ H) as [Fab Fc].
  eauto using fits_trans.
Qed.

Section StretchLength.
Variable num : Type.

Lemma length_chunks : forall n k (d : list num), length (chunks n k d) = k.
Proof. induction k; simpl; intros; auto. Qed.

Lemma length_concat_repeat : forall (l : list num) e,
  length (concat (repeat l e)) = e * length l.
Proof.
  induction e as [|e IH]; simpl; [reflexivity|].
  rewrite length_app, IH. reflexivity.
Qed.

Lemma stretch_length : forall t p (d : list num),
  Forall2 dim_fits t p ->
  length d = size_of p ->
  length (stretch t p d) = size_of t.
Proof.
  intros t p d H. revert d.
  induction H as [|e k t p Hek _ IH]; intros d Hd; [exact Hd|].
  simpl in *. destruct (Nat.eqb_spec k e) as [E | NE].
  - subst k.
    rewrite (flat_map_constant_length (c := size_of t)).
    + now rewrite length_chunks.
    + intros c Hc. apply IH. eapply chunks_each; eauto.
  - destruct Hek as [E | E]; [contradiction|]. subst k.
    rewrite length_concat_repeat, IH; [reflexivity|]. lia.
Qed.

Lemma size_of_padded : forall n s, size_of (repeat 1 n ++ s) = size_of s.
Proof. induction n; simpl; intros; auto. rewrite IHn. lia. Qed.

Lemma broadcast_to_length : forall t s (d : list num),
  fits t s ->
  length d = size_of s ->
  length (broadcast_to t s d) = size_of t.
Proof.
  intros t s d [_ F] Hd. unfold broadcast_to.
  apply stretch_length; [exact F|]. now rewrite size_of_padded.
Qed.
End StretchLength.

Section Outcome.
Variable num : Type.
Variable of_int : Z -> num.
Variable mc : num -> num -> num -> num * num.

Lemma length_map3 : forall a b c n,
  length a = n -> length b = n -> length c = n ->
  length (map3 mc a b c) = n.
Proof.
  intros a b c n Ha Hb Hc. unfold map3.
  rewrite length_map, !length_combine. lia.
Qed.

Lemma np_vectorize_outcome : forall theta u v,
  well_formed theta -> well_formed u -> well_formed v ->
  (exists sh da db,
      broadcast_shapes3 (shape_of theta) (shape_of u) (shape_of v) = Some sh
      /\ np_vectorize of_int mc theta u v = Ok (NdArray sh da, NdArray sh db)
      /\ length da = size_of sh /\ length db = size_of sh)
  \/ ((existsb (fun s => Nat.eqb (size_of s) 0)
               [shape_of theta; shape_of u; shape_of v] = true
       \/ broadcast_shapes3 (shape_of theta) (shape_of u) (shape_of v) = None)
      /\ np_vectorize of_int mc theta u v = Raise ValueError).
Proof.
  intros theta u v Wt Wu Wv. unfold np_vectorize.
  rewrite (asarray_shape_elements _ of_int theta),
          (asarray_shape_elements _ of_int u),
          (asarray_shape_elements _ of_int v).
  destruct (existsb _ _) eqn:Z; [right; auto|].
  destruct (broadcast_shapes3 _ _ _) as [sh|] eqn:B; [|right; auto].
  left. destruct (broadcast_shapes3_fits _ _ _ _ B) as (Ft & Fu & Fv).
  exists sh. do 2 eexists. split; [reflexivity|]. split; [reflexivity|].
  rewrite !length_map.
  split; apply length_map3;
    apply broadcast_to_length; auto using well_formed_length.
Qed.
End Outcome.

(** X7.  When the provider returns a well-formed angle and [u] and [v] are
    well formed, [vel_mag_correction] has one of two outcomes, in the state
    the provider left.  Either the three shapes broadcast to a shape [sh] and
    it returns two arrays of shape [sh] whose buffers have the size of [sh]
    (arrays also for scalar inputs); or some input is empty or the shapes do
    not broadcast, and it raises [ValueError]. *)
Theorem orchestrator_outcome :
  forall num (of_int : Z -> num) W
         (md : pyval num -> pyval num -> pyval num -> pyval num ->
               pyval num -> M W (pyval num))
         mc u v lat lon t z zflag w theta w',
    md lat lon t (default (PyFloat (of_int 0%Z)) z)
       (default (PyInt (-1)%Z) zflag) w = (Ok theta, w') ->
    well_formed theta -> well_formed u -> well_formed v ->
    (exists sh da db,
        broadcast_shapes3 (shape_of theta) (shape_of u) (shape_of v) = Some sh
        /\ vel_mag_correction of_int md mc u v lat lon t z zflag w =
           (Ok (NdArray sh da, NdArray sh db), w')
        /\ length da = size_of sh /\ length db = size_of sh)
    \/ ((existsb (fun s => Nat.eqb (size_of s) 0)
                 [shape_of theta; shape_of u; shape_of v] = true
         \/ broadcast_shapes3 (shape_of theta) (shape_of u) (shape_of v) = None)
        /\ vel_mag_correction of_int md mc u v lat lon t z zflag w =
           (Raise ValueError, w')).
Proof.
  intros num of_int W md mc u v lat lon t z zflag w theta w' Hmd Wt Wu Wv.
  rewrite vel_mag_correction_eq, Hmd.
  destruct (np_vectorize_outcome num of_int mc theta u v Wt Wu Wv)
    as [(sh & da & db & B & E & La & Lb) | [C E]]; rewrite E.
  - left. exists sh, da, db. auto.
  - right. auto.
Qed.

(** ** More on the validators *)

(** X1.  On an array without NaN a validator answers whether every element
    lies within the bounds, -90 to 90 for a latitude and -180 to 180 for a
    longitude, the bounds included. *)
Theorem validators_without_nan : forall sh d,
  forallb (fun x => negb (is_nan x)) d = true ->
  valid_lat (NdArray sh d) = forallb (within (-90) 90) d
  /\ valid_lon (NdArray sh d) = forallb (within (-180) 180) d.
Proof.
  intros sh d H. split.
  - now apply valid_lat_array_without_nan.
  - now apply valid_lon_array_without_nan.
Qed.

(** X2.  Validity is decided element by element and for the whole array at
    once: a concatenation is valid exactly when both parts are, whatever the
    shapes. *)
Theorem validators_concat : forall sh sh1 sh2 d1 d2,
  valid_lat (NdArray sh (d1 ++ d2)) =
    valid_lat (NdArray sh1 d1) && valid_lat (NdArray sh2 d2)
  /\ valid_lon (NdArray sh (d1 ++ d2)) =
    valid_lon (NdArray sh1 d1) && valid_lon (NdArray sh2 d2).
Proof.
  intros. rewrite !valid_lat_array, !valid_lon_array, !existsb_app.
  split; apply negb_orb.
Qed.

Lemma int_within : forall lo hi n : Z,
  ((lo <=? n) && (n <=? hi))%Z = negb ((n <? lo) || (hi <? n))%Z.
Proof.
  intros lo hi n. rewrite (Z.ltb_antisym lo n), (Z.ltb_antisym n hi).
  now destruct (lo <=? n)%Z, (n <=? hi)%Z.
Qed.

(** X3.  Unless the position is a scalar NaN, a validator rejects it exactly
    when some element lies outside the bounds; this covers Python ints,
    Python floats and arrays (with or without NaN elements). *)
Theorem validators_reject_exactly_outside : forall p,
  scalar_nan p = false ->
  valid_lat p = negb (lat_outside p) /\ valid_lon p = negb (lon_outside p).
Proof.
  intros [n|x|sh d] H; simpl in H.
  - split; apply int_within.
  - split; now apply not_outside_within.
  - split; [apply valid_lat_array | apply valid_lon_array].
Qed.

(** ** More on the wrappers *)

Lemma outline_failure : forall W f g z0,
  @wrapper_outline W f g z0 ->
  forall md mc u v lat lon t z w e w',
    valid_lat lat = true -> valid_lon lon = true ->
    (forall zz, md lat lon t zz (PyInt (-1)) w = (Raise e, w')) ->
    f md mc u v lat lon t z w = (Raise e, w').
Proof.
  intros W f g z0 Hout md mc u v lat lon t z w e w' Hlat Hlon Hmd.
  rewrite Hout, Hlat, Hlon. simpl.
  rewrite vel_mag_correction_eq. simpl. now rewrite Hmd.
Qed.

(** X4.  An exception of the provider is not caught: for a position the
    validators accept, [vel_mag_correction] and each of the four wrappers
    raise the provider's exception, in the state the provider left. *)
Theorem provider_failure_surfaces : forall W f,
  In f (@wrappers W) ->
  forall md mc u v lat lon t z w e w',
    valid_lat lat = true ->
    valid_lon lon = true ->
    (forall zz, md lat lon t zz (PyInt (-1)) w = (Raise e, w')) ->
    vel_mag_correction float_of_Z md mc u v lat lon t z None w = (Raise e, w')
    /\ f md mc u v lat lon t z w = (Raise e, w').
Proof.
  intros W f Hf md mc u v lat lon t z w e w' Hlat Hlon Hmd. split.
  - rewrite vel_mag_correction_eq. simpl. now rewrite Hmd.
  - destruct (wrappers_outline _ f Hf) as (g & z0 & _ & Hout).
    now apply (outline_failure _ f g z0 Hout).
Qed.

Lemma outline_queries : forall W f g z0,
  @wrapper_outline (W * list (query float)) f g z0 ->
  forall (md : pyval float -> pyval float -> pyval float -> pyval float ->
               pyval float -> M W (pyval float)) mc u v lat lon t z s,
    valid_lat lat = true -> valid_lon lon = true ->
    snd (snd (f (logging md) mc u v lat lon t z s)) =
    snd s ++ [mkQuery lat lon t (default z0 z) (PyInt (-1))].
Proof.
  intros W f g z0 Hout md mc u v lat lon t z [w log] Hlat Hlon.
  rewrite Hout, Hlat, Hlon. simpl.
  rewrite component_world. apply logging_appends.
Qed.

(** X5.  Nothing is cached between calls: the east wrapper followed by the
    north wrapper of the same family, with the same arguments and an accepted
    position, asks the provider twice with the same five arguments. *)
Theorem east_and_north_ask_twice :
  forall W (md : pyval float -> pyval float -> pyval float -> pyval float ->
                 pyval float -> M W (pyval float))
         mc u v lat lon t z w log,
    valid_lat lat = true ->
    valid_lon lon = true ->
    let q z0 := mkQuery lat lon t (default z0 z) (PyInt (-1)) in
    snd (snd (nobska_mag_corr_north (logging md) mc u v lat lon t z
                (snd (nobska_mag_corr_east (logging md) mc u v lat lon t z
                        (w, log))))) =
      log ++ [q (PyInt 0); q (PyInt 0)]
    /\ snd (snd (nortek_mag_corr_north (logging md) mc u v lat lon t z
                (snd (nortek_mag_corr_east (logging md) mc u v lat lon t z
                        (w, log))))) =
      log ++ [q (PyFloat 0%float); q (PyFloat 0%float)].
Proof.
  intros W md mc u v lat lon t z w log Hlat Hlon q. subst q. split.
  - rewrite (outline_queries _ _ _ _ (nobska_north_outline _)) by assumption.
    rewrite (outline_queries _ _ _ _ (nobska_east_outline _)) by assumption.
    simpl. now rewrite <- app_assoc.
  - rewrite (outline_queries _ _ _ _ (nortek_north_outline _)) by assumption.
    rewrite (outline_queries _ _ _ _ (nortek_east_outline _)) by assumption.
    simpl. now rewrite <- app_assoc.
Qed.

(** X6.  For a position a validator rejects (a scalar NaN included), the
    outcome of each of the four wrappers is decided by [u] alone, whatever
    [v], the timestamp, [z] and the provider are: for an array [u] it is the
    sentinel of the shape of [u], all of whose elements are -9999 (the Nobska
    wrappers do not convert it to metres); for a Python scalar [u] it is
    [AttributeError].  The state is left as it was. *)
Theorem rejected_position_same_answer : forall W f,
  In f (@wrappers W) ->
  forall md mc u v lat lon t z w,
    valid_lat lat = false \/ valid_lon lon = false ->
    f md mc u v lat lon t z w =
    (match u with
     | NdArray sh _ => Ok (sentinel sh)
     | _ => Raise AttributeError
     end, w)
    /\ forall sh, elements float_of_Z (sentinel sh) =
                  repeat (-9999)%float (size_of sh).
Proof.
  intros W f Hf md mc u v lat lon t z w Hbad.
  split; [|exact sentinel_elements].
  rewrite (invalid_branch _ f Hf) by assumption.
  now destruct u.
Qed.

(** X8.  For an accepted position and a given [z], a Nobska wrapper returns
    what the Nortek wrapper of the same component returns, every element
    multiplied by the binary64 value of 1/100, in the same state; when the
    Nortek wrapper raises, the Nobska wrapper raises the same exception. *)
Theorem nobska_is_nortek_per_100 :
  forall W md mc u v lat lon t z (w : W),
    valid_lat lat = true ->
    valid_lon lon = true ->
    let per_100 := map (fun x => x * (1 / 100))%float in
    match nortek_mag_corr_east md mc u v lat lon t (Some z) w with
    | (Ok (NdArray sh d), w') =>
        nobska_mag_corr_east md mc u v lat lon t (Some z) w =
        (Ok (NdArray sh (per_100 d)), w')
    | (Ok _, _) => False
    | (Raise e, w') =>
        nobska_mag_corr_east md mc u v lat lon t (Some z) w = (Raise e, w')
    end
    /\ match nortek_mag_corr_north md mc u v lat lon t (Some z) w with
       | (Ok (NdArray sh d), w') =>
           nobska_mag_corr_north md mc u v lat lon t (Some z) w =
           (Ok (NdArray sh (per_100 d)), w')
       | (Ok _, _) => False
       | (Raise e, w') =>
           nobska_mag_corr_north md mc u v lat lon t (Some z) w = (Raise e, w')
       end.
Proof.
  intros W md mc u v lat lon t z w Hlat Hlon per_100. subst per_100.
  rewrite (nobska_east_outline W), (nobska_north_outline W),
          (nortek_east_outline W), (nortek_north_outline W).
  rewrite Hlat, Hlon. cbn [negb orb default].
  destruct (vel_mag_correction _ _ _ _ _ _ _ _ (Some z) _ _)
    as [[[a b]|e] w'] eqn:E; [|split; reflexivity].
  destruct (orchestrator_returns_arrays _ _ _ _ _ _ _ _ _ _ _ _ _ _ _ _ E)
    as (su & da & sv & db & -> & ->).
  split; reflexivity.
Qed.

Lemma wrappers_outline_arrays : forall W f,
  In f (@wrappers W) ->
  exists g z0,
    wrapper_outline f g z0
    /\ forall sh da db,
        length da = size_of sh -> length db = size_of sh ->
        exists d, g (NdArray sh da, NdArray sh db) = NdArray sh d
                  /\ length d = size_of sh.
Proof.
  intros W f [<-|[<-|[<-|[<-|[]]]]]; do 2 eexists; split.
  - apply nobska_east_outline.
  - intros sh da db La Lb. eexists. split; [reflexivity|].
    now rewrite length_map.
  - apply nobska_north_outline.
  - intros sh da db La Lb. eexists. split; [reflexivity|].
    now rewrite length_map.
  - apply nortek_east_outline.
  - intros sh da db La Lb. exists da. auto.
  - apply nortek_north_outline.
  - intros sh da db La Lb. exists db. auto.
Qed.

(** X9.  For an accepted position, whatever a wrapper returns is a
    well-formed array, never a scalar, also for scalar velocities: provided
    [u] and [v] are well formed and the provider returns well-formed
    angles. *)
Theorem wrappers_return_arrays : forall W f,
  In f (@wrappers W) ->
  forall md mc u v lat lon t z w a w',
    valid_lat lat = true ->
    valid_lon lon = true ->
    well_formed u ->
    well_formed v ->
    (forall zz theta w1,
        md lat lon t zz (PyInt (-1)) w = (Ok theta, w1) -> well_formed theta) ->
    f md mc u v lat lon t z w = (Ok a, w') ->
    is_scalar a = false /\ well_formed a.
Proof.
  intros W f Hf md mc u v lat lon t z w a w' Hlat Hlon Wu Wv Wmd Hrun.
  destruct (wrappers_outline_arrays _ f Hf) as (g & z0 & Hout & Hg).
  rewrite Hout, Hlat, Hlon in Hrun. cbn [negb orb] in Hrun.
  rewrite vel_mag_correction_eq in Hrun. simpl in Hrun.
  destruct (md lat lon t (default z0 z) (PyInt (-1)) w) as [[theta|e] w1] eqn:E;
    [|discriminate].
  pose proof (Wmd _ _ _ E) as Wt.
  destruct (np_vectorize_outcome _ float_of_Z mc theta u v Wt Wu Wv)
    as [(sh & da & db & _ & R & La & Lb) | [_ R]];
    rewrite R in Hrun; simpl in Hrun; [|discriminate].
  destruct (Hg sh da db La Lb) as (d & Eg & Ld).
  rewrite Eg in Hrun. injection Hrun as <- _.
  split; [reflexivity | exact Ld].
Qed.

(** X10.  An empty velocity array [u]: for a rejected position the wrappers
    return the empty array of the shape of [u]; for an accepted position,
    once the provider has answered, they raise, since [np.vectorize] refuses
    inputs of size 0. *)
Theorem empty_velocity : forall W f,
  In f (@wrappers W) ->
  forall md mc sh d v lat lon t z w theta w',
    size_of sh = 0 ->
    (forall zz, md lat lon t zz (PyInt (-1)) w = (Ok theta, w')) ->
    if negb (valid_lat lat) || negb (valid_lon lon)
    then f md mc (NdArray sh d) v lat lon t z w = (Ok (NdArray sh []), w)
    else exists e, f md mc (NdArray sh d) v lat lon t z w = (Raise e, w').
Proof.
  intros W f Hf md mc sh d v lat lon t z w theta w' Hz Hmd.
  destruct (wrappers_outline _ f Hf) as (g & z0 & _ & Hout).
  rewrite Hout.
  destruct (negb (valid_lat lat) || negb (valid_lon lon)).
  - cbn [shape_attr]. rewrite sentinel_computed.
    destruct sh as [|k sh]; [discriminate|].
    unfold sentinel, fill_array. now rewrite Hz.
  - exists ValueError. rewrite vel_mag_correction_eq. simpl. rewrite Hmd.
    now rewrite np_vectorize_empty.
Qed.

(** X11.  NaN positions and the wrappers: a scalar NaN latitude is answered
    with the sentinel without asking the provider, whereas a latitude array
    of NaN only (with an accepted longitude) is handed to the provider. *)
Theorem nan_positions : forall W f,
  In f (@wrappers (W * list (query float))) ->
  forall (md : pyval float -> pyval float -> pyval float -> pyval float ->
               pyval float -> M W (pyval float))
         mc sh d v lon t z w log shl n,
    valid_lon lon = true ->
    f (logging md) mc (NdArray sh d) v (PyFloat nan) lon t z (w, log) =
      (Ok (sentinel sh), (w, log))
    /\ exists z0,
        snd (snd (f (logging md) mc (NdArray sh d) v
                    (NdArray shl (repeat nan n)) lon t z (w, log))) =
        log ++ [mkQuery (NdArray shl (repeat nan n)) lon t (default z0 z)
                        (PyInt (-1))].
Proof.
  intros W f Hf md mc sh d v lon t z w log shl n Hlon. split.
  - rewrite (invalid_branch _ f Hf); [reflexivity | left; reflexivity].
  - destruct (wrappers_outline _ f Hf) as (g & z0 & _ & Hout).
    exists z0. apply (outline_queries _ f g z0 Hout); [|exact Hlon].
    rewrite valid_lat_array. now rewrite existsb_repeat_false.
Qed.

(** ** The further properties at concrete inputs *)

Lemma validators_without_nan_witness :
  valid_lat (NdArray [3] [45%float; (-90)%float; 90.5%float]) =
    forallb (within (-90) 90) [45%float; (-90)%float; 90.5%float]
  /\ valid_lon (NdArray [3] [45%float; (-90)%float; 90.5%float]) =
    forallb (within (-180) 180) [45%float; (-90)%float; 90.5%float].
Proof. apply validators_without_nan. reflexivity. Defined.

Lemma validators_reject_exactly_outside_witness :
  valid_lat (PyFloat 90.5%float) = negb (lat_outside (PyFloat 90.5%float))
  /\ valid_lon (PyFloat 90.5%float) = negb (lon_outside (PyFloat 90.5%float)).
Proof. apply validators_reject_exactly_outside. reflexivity. Defined.

Lemma provider_failure_surfaces_witness :
  vel_mag_correction float_of_Z Stub.out_of_domain Stub.quarter_turns
    (NdArray [1] [100%float]) (NdArray [1] [0%float])
    (PyInt 45) (PyInt (-125)) (PyFloat 0%float) (Some (PyInt 10)) None tt =
    (Raise (External 1), tt)
  /\ nortek_mag_corr_east Stub.out_of_domain Stub.quarter_turns
       (NdArray [1] [100%float]) (NdArray [1] [0%float])
       (PyInt 45) (PyInt (-125)) (PyFloat 0%float) (Some (PyInt 10)) tt =
     (Raise (External 1), tt).
Proof.
  apply (provider_failure_surfaces _ (@nortek_mag_corr_east _)).
  - do 2 right. left. reflexivity.
  - reflexivity.
  - reflexivity.
  - intros zz. reflexivity.
Defined.

Lemma east_and_north_ask_twice_witness :
  let q z0 := mkQuery (PyInt 45) (PyInt (-125)) (PyFloat 0%float)
                      (default z0 (@None (pyval float))) (PyInt (-1)) in
  snd (snd (nobska_mag_corr_north (logging (Stub.uniform_field 90))
              Stub.quarter_turns
              (NdArray [1] [100%float]) (NdArray [1] [0%float])
              (PyInt 45) (PyInt (-125)) (PyFloat 0%float) None
              (snd (nobska_mag_corr_east (logging (Stub.uniform_field 90))
                      Stub.quarter_turns
                      (NdArray [1] [100%float]) (NdArray [1] [0%float])
                      (PyInt 45) (PyInt (-125)) (PyFloat 0%float) None
                      Stub.start)))) =
    [] ++ [q (PyInt 0); q (PyInt 0)]
  /\ snd (snd (nortek_mag_corr_north (logging (Stub.uniform_field 90))
              Stub.quarter_turns
              (NdArray [1] [100%float]) (NdArray [1] [0%float])
              (PyInt 45) (PyInt (-125)) (PyFloat 0%float) None
              (snd (nortek_mag_corr_east (logging (Stub.uniform_field 90))
                      Stub.quarter_turns
                      (NdArray [1] [100%float]) (NdArray [1] [0%float])
                      (PyInt 45) (PyInt (-125)) (PyFloat 0%float) None
                      Stub.start)))) =
    [] ++ [q (PyFloat 0%float); q (PyFloat 0%float)].
Proof.
  apply (east_and_north_ask_twice unit (Stub.uniform_field 90)
           Stub.quarter_turns
           (NdArray [1] [100%float]) (NdArray [1] [0%float])
           (PyInt 45) (PyInt (-125)) (PyFloat 0%float) None tt []);
    reflexivity.
Defined.

Lemma rejected_position_same_answer_witness :
  valid_lon (PyFloat 180.5%float) = false
  /\ nobska_mag_corr_east Stub.out_of_domain Stub.quarter_turns
       (NdArray [2] [100%float; 50%float]) (NdArray [2] [0%float; 10%float])
       (PyInt 45) (PyFloat 180.5%float) (PyFloat 0%float) None tt =
     (Ok (NdArray [2] [(-9999)%float; (-9999)%float]), tt).
Proof.
  split; [reflexivity|].
  apply (rejected_position_same_answer _ (@nobska_mag_corr_east _)
           (or_introl eq_refl)
           Stub.out_of_domain Stub.quarter_turns
           (NdArray [2] [100%float; 50%float])
           (NdArray [2] [0%float; 10%float])
           (PyInt 45) (PyFloat 180.5%float) (PyFloat 0%float) None tt).
  right. reflexivity.
Defined.

Lemma nobska_is_nortek_per_100_witness :
  nobska_mag_corr_east (Stub.uniform_field 90) Stub.quarter_turns
    (NdArray [2] [100%float; 50%float]) (NdArray [2] [0%float; 10%float])
    (PyInt 45) (PyInt (-125)) (PyFloat 0%float) (Some (PyInt 10)) tt =
    (Ok (NdArray [2] (map (fun x => x * (1 / 100))%float
                          [(-0)%float; (-10)%float])), tt)
  /\ nobska_mag_corr_north (Stub.uniform_field 90) Stub.quarter_turns
       (NdArray [2] [100%float; 50%float]) (NdArray [2] [0%float; 10%float])
       (PyInt 45) (PyInt (-125)) (PyFloat 0%float) (Some (PyInt 10)) tt =
     (Ok (NdArray [2] (map (fun x => x * (1 / 100))%float
                           [100%float; 50%float])), tt).
Proof.
  exact (nobska_is_nortek_per_100 unit (Stub.uniform_field 90)
           Stub.quarter_turns
           (NdArray [2] [100%float; 50%float])
           (NdArray [2] [0%float; 10%float])
           (PyInt 45) (PyInt (-125)) (PyFloat 0%float) (PyInt 10) tt
           eq_refl eq_refl).
Defined.

Lemma orchestrator_outcome_witness :
  (exists sh da db,
      broadcast_shapes3 (shape_of (NdArray [2] [90%float; 90%float]))
                        (shape_of (NdArray [2; 1] [1%float; 2%float]))
                        (shape_of (@PyFloat float 5%float)) = Some sh
      /\ vel_mag_correction float_of_Z (Stub.uniform_field 90)
           Stub.quarter_turns
           (NdArray [2; 1] [1%float; 2%float]) (PyFloat 5%float)
           (NdArray [2] [45%float; 46%float]) (PyInt (-125))
           (PyFloat 0%float) None None tt =
         (Ok (NdArray sh da, NdArray sh db), tt)
      /\ length da = size_of sh /\ length db = size_of sh)
  \/ ((existsb (fun s => Nat.eqb (size_of s) 0)
               [shape_of (NdArray [2] [90%float; 90%float]);
                shape_of (NdArray [2; 1] [1%float; 2%float]);
                shape_of (@PyFloat float 5%float)] = true
       \/ broadcast_shapes3 (shape_of (NdArray [2] [90%float; 90%float]))
                            (shape_of (NdArray [2; 1] [1%float; 2%float]))
                            (shape_of (@PyFloat float 5%float)) = None)
      /\ vel_mag_correction float_of_Z (Stub.uniform_field 90)
           Stub.quarter_turns
           (NdArray [2; 1] [1%float; 2%float]) (PyFloat 5%float)
           (NdArray [2] [45%float; 46%float]) (PyInt (-125))
           (PyFloat 0%float) None None tt =
         (Raise ValueError, tt)).
Proof.
  apply (orchestrator_outcome float float_of_Z unit (Stub.uniform_field 90)
           Stub.quarter_turns
           (NdArray [2; 1] [1%float; 2%float]) (PyFloat 5%float)
           (NdArray [2] [45%float; 46%float]) (PyInt (-125))
           (PyFloat 0%float) None None tt
           (NdArray [2] [90%float; 90%float]) tt);
    reflexivity.
Defined.

Lemma wrappers_return_arrays_witness :
  nobska_mag_corr_east (Stub.uniform_field 90) Stub.quarter_turns
    (PyFloat 100%float) (PyFloat 50%float)
    (PyInt 45) (PyInt (-125)) (PyFloat 0%float) None tt =
    (Ok (NdArray [] [(-0.5)%float]), tt)
  /\ is_scalar (NdArray [] [(-0.5)%float]) = false
  /\ well_formed (NdArray [] [(-0.5)%float]).
Proof.
  split; [reflexivity|].
  apply (wrappers_return_arrays _ (@nobska_mag_corr_east _)
           (or_introl eq_refl)
           (Stub.uniform_field 90) Stub.quarter_turns
           (PyFloat 100%float) (PyFloat 50%float)
           (PyInt 45) (PyInt (-125)) (PyFloat 0%float) None tt
           (NdArray [] [(-0.5)%float]) tt).
  - reflexivity.
  - reflexivity.
  - exact I.
  - exact I.
  - intros zz theta w1 H. injection H as <- _. exact I.
  - reflexivity.
Defined.

Lemma empty_velocity_witness :
  size_of [0] = 0
  /\ exists e,
      nortek_mag_corr_east (Stub.uniform_field 90) Stub.quarter_turns
        (NdArray [0] []) (NdArray [0] [])
        (PyInt 45) (PyInt (-125)) (PyFloat 0%float) None tt = (Raise e, tt).
Proof.
  split; [reflexivity|].
  apply (empty_velocity _ (@nortek_mag_corr_east _)
           (or_intror (or_intror (or_introl eq_refl)))
           (Stub.uniform_field 90) Stub.quarter_turns [0] [] (NdArray [0] [])
           (PyInt 45) (PyInt (-125)) (PyFloat 0%float) None tt
           (PyFloat 90%float) tt).
  - reflexivity.
  - intros zz. reflexivity.
Defined.

Lemma nan_positions_witness :
  nobska_mag_corr_north (logging (Stub.uniform_field 90)) Stub.quarter_turns
    (NdArray [1] [100%float]) (NdArray [1] [0%float])
    (PyFloat nan) (PyInt (-125)) (PyFloat 0%float) None Stub.start =
    (Ok (sentinel [1]), Stub.start)
  /\ exists z0,
      snd (snd (nobska_mag_corr_north (logging (Stub.uniform_field 90))
                  Stub.quarter_turns
                  (NdArray [1] [100%float]) (NdArray [1] [0%float])
                  (NdArray [1] (repeat nan 1)) (PyInt (-125))
                  (PyFloat 0%float) None Stub.start)) =
      [] ++ [mkQuery (NdArray [1] (repeat nan 1)) (PyInt (-125))
                     (PyFloat 0%float) (default z0 None) (PyInt (-1))].
Proof.
  apply (nan_positions unit (@nobska_mag_corr_north _)).
  - right. left. reflexivity.
  - reflexivity.
Defined.
